(** * FAIR Signposting link classification ([signposting/linkheader.py])

    The module reads the HTTP [Link] headers of a response and sorts the
    links into the relations of FAIR Signposting.  The development below
    embeds its functions and proves the properties of its specification.

    Python objects are references: a [Link] lives in a [store] and lists
    hold references to it, so that "the same link" and "a new link" can be
    told apart.  Exceptions are values of [exn] carried by [result].

    The generic Link-header parser ([httplink]) and [urllib.parse.urljoin]
    are external collaborators: the class [Externals] collects what the
    module calls of them, and the properties hold for every instance, some
    under a stated contract of the collaborator. *)

From Stdlib Require Import Ascii.
From stdpp Require Import gmap strings list.

(** ** Strings *)

(** [str.lower()] on header text, which is ASCII: the letters [A]-[Z] move
    to [a]-[z], every other character is kept. *)
Definition lower_ascii (c : ascii) : ascii :=
  let n := nat_of_ascii c in
  if bool_decide (65 ≤ n ≤ 90) then ascii_of_nat (n + 32) else c.

Fixpoint lower (s : string) : string :=
  match s with
  | EmptyString => EmptyString
  | String c s' => String (lower_ascii c) (lower s')
  end.

(** [s.split(sep)] with an explicit one-character separator. *)
Fixpoint split_acc (sep : ascii) (cur : string) (s : string) : list string :=
  match s with
  | EmptyString => [String.rev cur]
  | String c s' =>
      if decide (c = sep) then String.rev cur :: split_acc sep EmptyString s'
      else split_acc sep (String c cur) s'
  end.

Definition split (s : string) (sep : ascii) : list string :=
  split_acc sep EmptyString s.

(** [sep.join(xs)] *)
Fixpoint join (sep : string) (xs : list string) : string :=
  match xs with
  | [] => ""
  | [x] => x
  | x :: xs' => x +:+ sep +:+ join sep xs'
  end.

(** ** Exceptions *)

Inductive exn :=
  | ValueError (msg : string)
  | TypeError (msg : string)
  | KeyError (key : string)
  | MalformedHeader (detail : string).

Inductive result (A : Type) :=
  | Ok (a : A)
  | Raise (e : exn).
Arguments Ok {A} a.
Arguments Raise {A} e.

Global Instance result_ret : MRet result := λ A a, Ok a.
Global Instance result_bind : MBind result := λ A B f m,
  match m with
  | Ok a => f a
  | Raise e => Raise e
  end.

(** [prefix + "%s" % args] with a tuple on the right of [%]: the tuple has
    to supply exactly one value for the one conversion. *)
Definition format_tuple (prefix : string) (args : list string) : result string :=
  match args with
  | [] => Raise (TypeError "not enough arguments for format string")
  | [a] => Ok (prefix +:+ a)
  | _ => Raise (TypeError "not all arguments converted during string formatting")
  end.

(** [prefix + "%s" % arg] with a string on the right of [%]. *)
Definition format_str (prefix : string) (arg : string) : string :=
  prefix +:+ arg.

(** ** Links *)

(** The fields of an [httplink.Link] object. *)
Record Link := mkLink {
  target : string;
  attributes : list (string * string);
  rel : gset string
}.

Global Instance Link_eq_dec : EqDecision Link.
Proof. solve_decision. Defined.

(** References to [Link] objects, and the objects allocated so far. *)
Abbreviation ref := nat (only parsing).
Abbreviation store := (list Link) (only parsing).

Definition alloc (o : Link) (σ : store) : ref * store :=
  (length σ, σ ++ [o]).

(** An [httplink.ParsedLinks] object: its [links] list. *)
Record ParsedLinks := mkParsedLinks { links : list ref }.

(** ** The vocabulary *)

Definition SIGNPOSTING : gset string :=
  list_to_set
    (split "author collection describedby describes item cite-as type license linkset" " ").

(** A set is true when it is not empty: [s1 & s2] as a condition. *)
Definition intersects (s1 s2 : gset string) : bool :=
  bool_decide (s1 ∩ s2 ≠ ∅).

(** [l.rel] for a reference [l]; a list never holds a reference outside
    the store, such a reference has no relation. *)
Definition rel_of (σ : store) (l : ref) : gset string :=
  from_option rel ∅ (σ !! l).

(** ** Filtering by relation *)

Definition _filter_links_by_rel (σ : store) (parsedLinks : ParsedLinks)
    (rels : list string) : result (list ref) :=
  let filterRels : gset string :=
    if bool_decide (rels ≠ [])
    then list_to_set (lower <$> filter (λ r, lower r ∈ SIGNPOSTING) rels)
    else SIGNPOSTING in
  if negb (intersects filterRels SIGNPOSTING)
  then
    msg ← format_tuple "No FAIR Signposting relations found: " rels;
    Raise (ValueError msg)
  else Ok (filter (λ l, intersects (rel_of σ l) filterRels) (links parsedLinks)).

(** ** The result *)

Record Signposting := mkSignposting {
  author : list ref;
  describedBy : list ref;
  type : list ref;
  item : list ref;
  linkset : list ref;
  citeAs : option ref;
  license : option ref;
  collection : option ref
}.

(** ** The module *)

(** The external collaborators of the module. *)
Class Externals := {
  (** [httplink.Link(target, attributes)] derives the [rel] set of the new
      object from its attributes. *)
  link_rel : list (string * string) → gset string;
  (** [httplink.ParsedLinks]: the link that [parsedLinks[rel]] resolves to,
      if [rel in parsedLinks]. *)
  by_rel : store → ParsedLinks → string → option ref;
  (** [httplink.parse_link_header]: the [Link] objects of a header value in
      header order, or the parser's exception. *)
  parse_link_header : string → result (list Link);
  (** [urllib.parse.urljoin] *)
  urljoin : string → string → string
}.

Section Linkheader.

Context `{E : Externals}.

Definition Link_new (target : string) (attributes : list (string * string)) : Link :=
  mkLink target attributes (link_rel attributes).

Definition ParsedLinks_contains (σ : store) (parsedLinks : ParsedLinks)
    (rel : string) : bool :=
  bool_decide (is_Some (by_rel σ parsedLinks rel)).

Definition ParsedLinks_getitem (σ : store) (parsedLinks : ParsedLinks)
    (rel : string) : result ref :=
  match by_rel σ parsedLinks rel with
  | Some l => Ok l
  | None => Raise (KeyError rel)
  end.

Definition _optional_link (σ : store) (parsedLinks : ParsedLinks)
    (rel : string) : result (option ref) :=
  if negb (bool_decide (lower rel ∈ SIGNPOSTING))
  then Raise (ValueError (format_str "Unknown FAIR Signposting relation: " rel))
  else if ParsedLinks_contains σ parsedLinks rel
  then l ← ParsedLinks_getitem σ parsedLinks rel; Ok (Some l)
  else Ok None.

(** [Signposting.__init__] *)
Definition Signposting_init (σ : store) (parsedLinks : ParsedLinks)
    : result Signposting :=
  author ← _filter_links_by_rel σ parsedLinks ["author"];
  describedBy ← _filter_links_by_rel σ parsedLinks ["describedby"];
  type ← _filter_links_by_rel σ parsedLinks ["type"];
  item ← _filter_links_by_rel σ parsedLinks ["item"];
  linkset ← _filter_links_by_rel σ parsedLinks ["linkset"];
  citeAs ← _optional_link σ parsedLinks "cite-as";
  license ← _optional_link σ parsedLinks "license";
  collection ← _optional_link σ parsedLinks "collection";
  Ok (mkSignposting author describedBy type item linkset citeAs license collection).

Definition _absolute_attribute (k v baseurl : string) : string * string :=
  if decide (lower k = "href") then (k, urljoin baseurl v) else (k, v).

(** One turn of the loop of [find_signposting]: [st] is the store and the
    list [signposting] built so far, [l] the link at hand. *)
Definition find_signposting_body (baseurl : option string)
    (st : store * list ref) (l : ref) : store * list ref :=
  let '(σ, signposting) := st in
  match baseurl with
  | Some baseurl =>
      match σ !! l with
      | Some o =>
          let target := urljoin baseurl (target o) in
          let attributes :=
            (λ kv, _absolute_attribute kv.1 kv.2 baseurl) <$> attributes o in
          let '(link, σ') := alloc (Link_new target attributes) σ in
          (σ', signposting ++ [link])
      | None => (σ, signposting)
      end
  | None => (σ, signposting ++ [l])
  end.

(** The loop: the links kept for classification, and the store after it. *)
Definition find_signposting_loop (baseurl : option string) (σ : store)
    (ls : list ref) : store * list ref :=
  fold_left (find_signposting_body baseurl) ls (σ, []).

(** [find_signposting]; the store of the objects of the call is returned
    with the result. *)
Definition find_signposting (headers : list string) (baseurl : option string)
    : result (Signposting * store) :=
  objs ← parse_link_header (join ", " headers);
  let σ0 : store := objs in
  let parsed := mkParsedLinks (seq 0 (length objs)) in
  ls ← _filter_links_by_rel σ0 parsed [];
  let '(σ, signposting) := find_signposting_loop baseurl σ0 ls in
  s ← Signposting_init σ (mkParsedLinks signposting);
  Ok (s, σ).

(** The link that the loop of [find_signposting] builds from [o]. *)
Definition absolutized (baseurl : string) (o : Link) : Link :=
  Link_new (urljoin baseurl (target o))
    ((λ kv, _absolute_attribute kv.1 kv.2 baseurl) <$> attributes o).

End Linkheader.

(** ** Reading the properties *)

(** The link at [l] carries the relation [r]. *)
Definition has_rel (σ : store) (r : string) (l : ref) : Prop :=
  r ∈ rel_of σ l.

Global Instance has_rel_dec σ r l : Decision (has_rel σ r l).
Proof. unfold has_rel. apply _. Defined.

(** The first link of [ls] that carries the relation [r]. *)
Definition first_with (σ : store) (r : string) (ls : list ref) : option ref :=
  head (filter (has_rel σ r) ls).

(** The link at [l] carries one of the supplied names that, lower-cased,
    is in the vocabulary. *)
Definition selects (σ : store) (rels : list string) (l : ref) : Prop :=
  Exists (λ r, lower r ∈ SIGNPOSTING ∧ lower r ∈ rel_of σ l) rels.

Global Instance selects_dec σ rels l : Decision (selects σ rels l).
Proof. unfold selects. apply _. Defined.






(** ** A sample of the external collaborators

    A small Link-header reader and URL resolver, enough to run the functions
    on the headers of the scenarios.  Values are unquoted tokens. *)
Module Sample.

Fixpoint lstrip (s : string) : string :=
  match s with
  | String c s' => if Ascii.is_space c then lstrip s' else s
  | EmptyString => EmptyString
  end.

Definition strip (s : string) : string :=
  String.rev (lstrip (String.rev (lstrip s))).

(** [s.partition(sep)]: the text before and after the first [sep]. *)
Fixpoint partition (sep : ascii) (s : string) : string * string :=
  match s with
  | EmptyString => (EmptyString, EmptyString)
  | String c s' =>
      if decide (c = sep) then (EmptyString, s')
      else let '(a, b) := partition sep s' in (String c a, b)
  end.

Definition parse_attribute (a : string) : string * string :=
  let '(k, v) := partition "=" a in (strip k, strip v).

(** The [rel] set of a new link: the lower-cased tokens of the values of
    its [rel] attributes. *)
Definition link_rel (attributes : list (string * string)) : gset string :=
  list_to_set
    (filter (λ w, w ≠ "")
       (mbind (λ kv : string * string,
          if decide (lower kv.1 = "rel") then split (lower kv.2) " " else [])
          attributes)).

Definition parse_entry (e : string) : result Link :=
  match split e ";" with
  | t :: attrs =>
      match strip t with
      | String "<" rest =>
          match String.rev rest with
          | String ">" tgt =>
              let attributes := parse_attribute <$> attrs in
              Ok (mkLink (String.rev tgt) attributes (link_rel attributes))
          | _ => Raise (MalformedHeader e)
          end
      | _ => Raise (MalformedHeader e)
      end
  | [] => Raise (MalformedHeader e)
  end.

Definition parse_link_header (s : string) : result (list Link) :=
  mapM parse_entry (split s ",").

(** Lookup by relation: the first link in order, the name in any case. *)
Definition by_rel (σ : store) (parsedLinks : ParsedLinks) (r : string) : option ref :=
  first_with σ (lower r) (links parsedLinks).

(** The part of [u] up to and including its last [/]. *)
Fixpoint dirname (u : string) : string :=
  match u with
  | EmptyString => EmptyString
  | String c u' =>
      let d := dirname u' in
      if decide (d = EmptyString)
      then (if decide (c = "/"%char) then String c EmptyString else EmptyString)
      else String c d
  end.

(** The scheme and authority of [u]: up to the first [/] after [://]. *)
Definition origin (u : string) : string :=
  match String.index 0 "://" u with
  | Some i =>
      match String.index (i + 3) "/" u with
      | Some j => String.substring 0 j u
      | None => u
      end
  | None => EmptyString
  end.

Definition is_absolute (u : string) : bool :=
  bool_decide (is_Some (String.index 0 "://" u)).

(** URL resolution for the three common shapes of a reference: absolute,
    absolute path, relative path. *)
Definition urljoin (base u : string) : string :=
  if is_absolute u then u
  else match u with
       | String "/" _ => origin base +:+ u
       | _ => dirname base +:+ u
       end.


(** Two header lines of a response and the base URL of the request. *)
Definition headers : list string :=
  [ "<https://example.org/a>; rel=author, </b>; rel=item Author; href=c.json";
    "<https://example.org/s.css>; rel=stylesheet, <https://doi.org/10.5555/12345678>; rel=cite-as, </about>; rel=describes" ].

Definition baseurl : string := "https://example.org/dataset/".

(** The links of [headers] as the reader returns them. *)
Definition objs : list Link :=
  [ mkLink "https://example.org/a" [("rel", "author")] {["author"]};
    mkLink "/b" [("rel", "item Author"); ("href", "c.json")] {["item"; "author"]};
    mkLink "https://example.org/s.css" [("rel", "stylesheet")] {["stylesheet"]};
    mkLink "https://doi.org/10.5555/12345678" [("rel", "cite-as")] {["cite-as"]};
    mkLink "/about" [("rel", "describes")] {["describes"]} ].

(** A header line that misses the closing angle bracket. *)
Definition malformed : list string := [ "<https://example.org/a; rel=author" ].


End Sample.

Definition sample_externals : Externals :=
  {| link_rel := Sample.link_rel;
     by_rel := Sample.by_rel;
     parse_link_header := Sample.parse_link_header;
     urljoin := Sample.urljoin |}.

(** ** Sets and the vocabulary *)

Lemma intersects_spec (s1 s2 : gset string) :
  intersects s1 s2 ↔ ∃ x, x ∈ s1 ∧ x ∈ s2.
Proof.
  unfold intersects. rewrite bool_decide_spec. split.
  - intros H. apply set_choose_L in H as [x Hx]. exists x. set_solver.
  - intros [x [H1 H2]]. set_solver.
Qed.

Lemma SIGNPOSTING_elem (r : string) :
  r ∈ SIGNPOSTING ↔
  r ∈ ["author"; "collection"; "describedby"; "describes"; "item"; "cite-as";
       "type"; "license"; "linkset"].
Proof. unfold SIGNPOSTING. rewrite elem_of_list_to_set. reflexivity. Qed.

Lemma lower_SIGNPOSTING (r : string) : r ∈ SIGNPOSTING → lower r = r.
Proof.
  rewrite SIGNPOSTING_elem. rewrite !elem_of_cons, elem_of_nil.
  intros H. repeat destruct H as [-> | H]; try reflexivity. destruct H.
Qed.

(** The filter set that [_filter_links_by_rel] builds from its names. *)
Global Typeclasses Opaque SIGNPOSTING.
Global Opaque SIGNPOSTING.

(** Membership of a given name in the vocabulary, by evaluation. *)
Ltac vocabulary := apply (bool_decide_unpack _); vm_compute; exact I.

Lemma elem_of_filterRels (rels : list string) (x : string) :
  x ∈ (list_to_set (lower <$> filter (λ r, lower r ∈ SIGNPOSTING) rels) : gset string)
  ↔ ∃ r, r ∈ rels ∧ lower r ∈ SIGNPOSTING ∧ x = lower r.
Proof.
  rewrite elem_of_list_to_set, list_elem_of_fmap. split.
  - intros [r [-> Hr]]. apply list_elem_of_filter in Hr as [? ?]. eauto.
  - intros [r [? [? ->]]]. exists r. split; [done|]. by apply list_elem_of_filter.
Qed.

(** ** [_filter_links_by_rel] *)

Lemma filterRels_intersects (rels : list string) :
  intersects (list_to_set (lower <$> filter (λ r, lower r ∈ SIGNPOSTING) rels)) SIGNPOSTING
  ↔ Exists (λ r, lower r ∈ SIGNPOSTING) rels.
Proof.
  rewrite intersects_spec, Exists_exists. split.
  - intros [x [Hx _]]. apply elem_of_filterRels in Hx as [r [? [? _]]]. eauto.
  - intros [r [? ?]]. exists (lower r). split; [|done].
    apply elem_of_filterRels. eauto.
Qed.

Lemma SIGNPOSTING_intersects : intersects SIGNPOSTING SIGNPOSTING.
Proof. apply intersects_spec. exists "item". split; vocabulary. Qed.

(** Without names the filter keeps the links that carry a relation of the
    vocabulary. *)
Lemma _filter_links_by_rel_nil (σ : store) (parsedLinks : ParsedLinks) :
  _filter_links_by_rel σ parsedLinks [] =
  Ok (filter (λ l, intersects (rel_of σ l) SIGNPOSTING) (links parsedLinks)).
Proof.
  unfold _filter_links_by_rel. rewrite bool_decide_false by (intros H; by apply H).
  pose proof SIGNPOSTING_intersects as H. destruct (intersects SIGNPOSTING SIGNPOSTING); [done|].
  destruct H.
Qed.

(** With a valid name among the names, the filter keeps the selected links. *)
Lemma _filter_links_by_rel_valid (σ : store) (parsedLinks : ParsedLinks)
    (rels : list string) :
  Exists (λ r, lower r ∈ SIGNPOSTING) rels →
  _filter_links_by_rel σ parsedLinks rels =
  Ok (filter (selects σ rels) (links parsedLinks)).
Proof.
  intros Hex. unfold _filter_links_by_rel.
  rewrite bool_decide_true by (intros ->; by apply Exists_nil in Hex).
  apply filterRels_intersects in Hex.
  destruct (intersects (list_to_set _) SIGNPOSTING); [simpl|destruct Hex].
  f_equal. apply list_filter_iff. intros l.
  rewrite intersects_spec. unfold selects. rewrite Exists_exists. split.
  - intros [x [Hx Hf]]. apply elem_of_filterRels in Hf as [r [? [? ->]]]. eauto.
  - intros [r [? [? ?]]]. exists (lower r). split; [done|].
    apply elem_of_filterRels. eauto.
Qed.

(** One name of the vocabulary, as [Signposting.__init__] passes it. *)
Lemma _filter_links_by_rel_single (σ : store) (parsedLinks : ParsedLinks)
    (r : string) :
  r ∈ SIGNPOSTING →
  _filter_links_by_rel σ parsedLinks [r] =
  Ok (filter (has_rel σ r) (links parsedLinks)).
Proof.
  intros Hr. pose proof (lower_SIGNPOSTING r Hr) as Hl.
  rewrite _filter_links_by_rel_valid by (apply Exists_cons_hd; by rewrite Hl).
  f_equal. apply list_filter_iff. intros l. unfold selects, has_rel.
  rewrite Exists_cons, Exists_nil, Hl. tauto.
Qed.

(** The filter raises exactly when names are supplied and none of them is
    in the vocabulary. *)
Lemma _filter_links_by_rel_raises (σ : store) (parsedLinks : ParsedLinks)
    (rels : list string) :
  (∃ e, _filter_links_by_rel σ parsedLinks rels = Raise e) ↔
  rels ≠ [] ∧ Forall (λ r, lower r ∉ SIGNPOSTING) rels.
Proof.
  split.
  - intros [e He]. destruct rels as [|r rels].
    { by rewrite _filter_links_by_rel_nil in He. }
    split; [done|]. apply Forall_Exists_neg. intros Hex.
    by rewrite _filter_links_by_rel_valid in He.
  - intros [Hne Hall]. apply Forall_Exists_neg in Hall.
    unfold _filter_links_by_rel. rewrite bool_decide_true by done.
    rewrite <- filterRels_intersects in Hall.
    destruct (intersects (list_to_set _) SIGNPOSTING); [by destruct Hall|simpl].
    destruct (format_tuple _ rels); simpl; eauto.
Qed.

(** A single name outside the vocabulary is reported in a [ValueError]. *)
Lemma _filter_links_by_rel_invalid_single (σ : store) (parsedLinks : ParsedLinks)
    (r : string) :
  lower r ∉ SIGNPOSTING →
  _filter_links_by_rel σ parsedLinks [r] =
  Raise (ValueError ("No FAIR Signposting relations found: " +:+ r)).
Proof.
  intros Hr. unfold _filter_links_by_rel. rewrite bool_decide_true by done.
  assert (¬ Exists (λ r, lower r ∈ SIGNPOSTING) [r]) as Hex.
  { rewrite Exists_cons, Exists_nil. tauto. }
  rewrite <- filterRels_intersects in Hex.
  destruct (intersects (list_to_set _) SIGNPOSTING); [by destruct Hex|done].
Qed.

(** Two names or more, none in the vocabulary: the message of the
    [ValueError] cannot be formatted and a [TypeError] is raised instead. *)
Lemma _filter_links_by_rel_invalid_many (σ : store) (parsedLinks : ParsedLinks)
    (r1 r2 : string) (rels : list string) :
  Forall (λ r, lower r ∉ SIGNPOSTING) (r1 :: r2 :: rels) →
  _filter_links_by_rel σ parsedLinks (r1 :: r2 :: rels) =
  Raise (TypeError "not all arguments converted during string formatting").
Proof.
  intros Hall. apply Forall_Exists_neg in Hall.
  unfold _filter_links_by_rel. rewrite bool_decide_true by done.
  rewrite <- filterRels_intersects in Hall.
  destruct (intersects (list_to_set _) SIGNPOSTING); [by destruct Hall|done].
Qed.

(** C4, at two names outside the vocabulary: [_filter_links_by_rel] raises
    a [TypeError] from formatting its message, where the specification has
    an [InvalidRelation] ([ValueError]) that names the offending input. *)
Theorem filterByRelations_two_invalid_names :
  _filter_links_by_rel [mkLink "https://example.org/page" [("rel", "stylesheet")] {["stylesheet"]}]
    (mkParsedLinks [0]) ["stylesheet"; "alternate"] =
  Raise (TypeError "not all arguments converted during string formatting").
Proof. vm_compute. reflexivity. Qed.


(** C6: [_filter_links_by_rel] without names returns what it returns with
    the nine names of the vocabulary, and it returns a list. *)
Theorem filterByRelations_no_names (σ : store) (parsedLinks : ParsedLinks)
    (rels : list string) :
  (list_to_set rels : gset string) = SIGNPOSTING →
  _filter_links_by_rel σ parsedLinks [] = _filter_links_by_rel σ parsedLinks rels ∧
  ∃ ls, _filter_links_by_rel σ parsedLinks [] = Ok ls.
Proof.
  intros Hset.
  assert (∀ r, r ∈ rels ↔ r ∈ SIGNPOSTING) as Hin.
  { intros r. by rewrite <- Hset, elem_of_list_to_set. }
  split; [|rewrite _filter_links_by_rel_nil; eauto].
  rewrite _filter_links_by_rel_nil, _filter_links_by_rel_valid.
  - f_equal. apply list_filter_iff. intros l.
    rewrite intersects_spec. unfold selects. rewrite Exists_exists. split.
    + intros [x [Hx HV]]. exists x. rewrite Hin, (lower_SIGNPOSTING x HV). done.
    + intros [r [Hr [HV Hl]]]. apply Hin in Hr.
      rewrite (lower_SIGNPOSTING r Hr) in Hl. eauto.
  - apply Exists_exists. exists "item".
    assert ("item" ∈ SIGNPOSTING) as Hitem by vocabulary.
    split; [by apply Hin | exact Hitem].
Qed.

(** ** More on [_filter_links_by_rel] *)

(** Names are supplied and none is in the vocabulary: the filter goes to its
    [raise] statement, whatever the links. *)
Lemma _filter_links_by_rel_invalid (σ : store) (parsedLinks : ParsedLinks)
    (rels : list string) :
  rels ≠ [] → Forall (λ r, lower r ∉ SIGNPOSTING) rels →
  _filter_links_by_rel σ parsedLinks rels =
  (msg ← format_tuple "No FAIR Signposting relations found: " rels;
   Raise (ValueError msg)).
Proof.
  intros Hne Hall. apply Forall_Exists_neg in Hall.
  unfold _filter_links_by_rel. rewrite bool_decide_true by done.
  rewrite <- filterRels_intersects in Hall.
  by destruct (intersects (list_to_set _) SIGNPOSTING); [destruct Hall|].
Qed.

Lemma selects_intersects (σ : store) (rels : list string) (l : ref) :
  selects σ rels l → intersects (rel_of σ l) SIGNPOSTING.
Proof.
  unfold selects. rewrite Exists_exists, intersects_spec.
  intros [r [_ [? ?]]]. eauto.
Qed.

Lemma intersects_lookup (σ : store) (l : ref) :
  intersects (rel_of σ l) SIGNPOSTING →
  ∃ o, σ !! l = Some o ∧ rel o ∩ SIGNPOSTING ≠ ∅.
Proof.
  unfold intersects, rel_of. rewrite bool_decide_spec.
  destruct (σ !! l) as [o|]; simpl; [eauto|].
  intros Hne. destruct Hne. apply intersection_empty_l_L.
Qed.

(** Every outcome of the filter, by its names: a list when no name is
    supplied or one is in the vocabulary, an exception otherwise. *)
Lemma _filter_links_by_rel_cases (σ : store) (parsedLinks : ParsedLinks)
    (rels : list string) :
  (rels = [] ∧
   _filter_links_by_rel σ parsedLinks rels =
   Ok (filter (λ l, intersects (rel_of σ l) SIGNPOSTING) (links parsedLinks))) ∨
  (Exists (λ r, lower r ∈ SIGNPOSTING) rels ∧
   _filter_links_by_rel σ parsedLinks rels =
   Ok (filter (selects σ rels) (links parsedLinks))) ∨
  (rels ≠ [] ∧ Forall (λ r, lower r ∉ SIGNPOSTING) rels ∧
   _filter_links_by_rel σ parsedLinks rels =
   (msg ← format_tuple "No FAIR Signposting relations found: " rels;
    Raise (ValueError msg))).
Proof.
  destruct rels as [|r rels].
  - left. split; [done|]. apply _filter_links_by_rel_nil.
  - right. destruct (decide (Exists (λ r, lower r ∈ SIGNPOSTING) (r :: rels)))
      as [Hex|Hex].
    + left. split; [done|]. by apply _filter_links_by_rel_valid.
    + right. apply Forall_Exists_neg in Hex. split; [done|]. split; [done|].
      by apply _filter_links_by_rel_invalid.
Qed.


(** X2: the order of the supplied names does not matter: two lists of names
    that are permutations of each other give the same outcome, list or
    exception. *)
Theorem filter_names_permutation (σ : store) (parsedLinks : ParsedLinks)
    (rels rels' : list string) :
  rels ≡ₚ rels' →
  _filter_links_by_rel σ parsedLinks rels = _filter_links_by_rel σ parsedLinks rels'.
Proof.
  intros Hp.
  destruct (_filter_links_by_rel_cases σ parsedLinks rels)
    as [[-> ->]|[[Hex ->]|[Hne [Hall ->]]]].
  - apply Permutation_nil_l in Hp as <-. by rewrite _filter_links_by_rel_nil.
  - rewrite _filter_links_by_rel_valid by (by rewrite <- Hp).
    f_equal. apply list_filter_iff. intros l. unfold selects. by rewrite Hp.
  - rewrite _filter_links_by_rel_invalid.
    + destruct rels as [|r1 [|r2 rels]]; [done| |].
      * by apply Permutation_singleton_l in Hp as <-.
      * apply Permutation_length in Hp.
        by destruct rels' as [|r1' [|r2' rels']].
    + intros ->. by apply Permutation_nil_r in Hp.
    + by rewrite <- Hp.
Qed.

Lemma Exists_lower_eq (P : string → Prop) (rels rels' : list string) :
  Forall2 (λ r r', lower r = lower r') rels rels' →
  Exists (λ r, P (lower r)) rels ↔ Exists (λ r, P (lower r)) rels'.
Proof.
  induction 1 as [|r r' rels rels' Hr _ IH]; [done|].
  by rewrite !Exists_cons, Hr, IH.
Qed.

(** X3: the case of a supplied name does not matter to the links returned:
    when a name is in the vocabulary, names that differ from the supplied
    ones in case only return the same list. *)
Theorem filter_names_case (σ : store) (parsedLinks : ParsedLinks)
    (rels rels' : list string) :
  Forall2 (λ r r', lower r = lower r') rels rels' →
  Exists (λ r, lower r ∈ SIGNPOSTING) rels →
  _filter_links_by_rel σ parsedLinks rels = _filter_links_by_rel σ parsedLinks rels'.
Proof.
  intros Hc Hex.
  rewrite !_filter_links_by_rel_valid;
    [|by apply (Exists_lower_eq (λ x, x ∈ SIGNPOSTING) _ _ Hc)|done].
  f_equal. apply list_filter_iff. intros l. unfold selects.
  apply (Exists_lower_eq (λ x, x ∈ SIGNPOSTING ∧ x ∈ rel_of σ l) _ _ Hc).
Qed.

(** X4: whatever the names, a returned list is a subsequence of the input
    links, and each of its links is an object of the store whose [rel] set
    shares a name with the vocabulary. *)
Theorem filter_returns_vocabulary_links (σ : store) (parsedLinks : ParsedLinks)
    (rels : list string) (res : list ref) :
  _filter_links_by_rel σ parsedLinks rels = Ok res →
  res `sublist_of` links parsedLinks ∧
  Forall (λ l, ∃ o, σ !! l = Some o ∧ rel o ∩ SIGNPOSTING ≠ ∅) res.
Proof.
  intros Hres.
  destruct (_filter_links_by_rel_cases σ parsedLinks rels)
    as [[_ H]|[[_ H]|[_ [_ H]]]]; rewrite H in Hres.
  - injection Hres as <-. split; [apply sublist_filter|].
    apply Forall_forall. intros l Hl. apply list_elem_of_filter in Hl as [Hl _].
    by apply intersects_lookup.
  - injection Hres as <-. split; [apply sublist_filter|].
    apply Forall_forall. intros l Hl. apply list_elem_of_filter in Hl as [Hl _].
    by apply intersects_lookup, (selects_intersects σ rels).
  - by destruct (format_tuple _ rels).
Qed.

(** X5: filtering is idempotent: the filter applied, with the same names, to
    the list it returned returns that list. *)
Theorem filter_idempotent (σ : store) (parsedLinks : ParsedLinks)
    (rels : list string) (res : list ref) :
  _filter_links_by_rel σ parsedLinks rels = Ok res →
  _filter_links_by_rel σ (mkParsedLinks res) rels = Ok res.
Proof.
  intros Hres.
  destruct (_filter_links_by_rel_cases σ parsedLinks rels)
    as [[-> H]|[[Hex H]|[_ [_ H]]]]; rewrite H in Hres.
  - injection Hres as <-. rewrite _filter_links_by_rel_nil. simpl.
    f_equal. by apply list_filter_filter_l.
  - injection Hres as <-. rewrite _filter_links_by_rel_valid by done. simpl.
    f_equal. by apply list_filter_filter_l.
  - by destruct (format_tuple _ rels).
Qed.

(** X6: filtering by the whole vocabulary first loses nothing: on the list
    returned for no names, the filter for any names has the outcome it has
    on the input links.  This is how [find_signposting] and
    [Signposting.__init__] compose. *)
Theorem filter_after_vocabulary_filter (σ : store) (parsedLinks : ParsedLinks)
    (rels : list string) (all : list ref) :
  _filter_links_by_rel σ parsedLinks [] = Ok all →
  _filter_links_by_rel σ (mkParsedLinks all) rels =
  _filter_links_by_rel σ parsedLinks rels.
Proof.
  rewrite _filter_links_by_rel_nil. intros Hall. injection Hall as <-.
  destruct (_filter_links_by_rel_cases σ parsedLinks rels)
    as [[-> H]|[[Hex H]|[Hne [Hinv H]]]]; rewrite H.
  - rewrite _filter_links_by_rel_nil. simpl. f_equal.
    by apply list_filter_filter_l.
  - rewrite _filter_links_by_rel_valid by done. simpl. f_equal.
    apply list_filter_filter_l. intros l. apply selects_intersects.
  - by apply _filter_links_by_rel_invalid.
Qed.

(** X7: more names return more links: when every name of [rels] is among
    [rels'] and one lower-cases into the vocabulary, both calls return a list
    and the first is a subsequence of the second. *)
Theorem filter_monotone (σ : store) (parsedLinks : ParsedLinks)
    (rels rels' : list string) :
  rels ⊆ rels' →
  Exists (λ r, lower r ∈ SIGNPOSTING) rels →
  ∃ res res',
    _filter_links_by_rel σ parsedLinks rels = Ok res ∧
    _filter_links_by_rel σ parsedLinks rels' = Ok res' ∧
    res `sublist_of` res'.
Proof.
  intros Hsub Hex.
  assert (∀ P : string → Prop, Exists P rels → Exists P rels') as Hmono.
  { intros P. rewrite !Exists_exists. intros [r [Hr HP]]. exists r.
    split; [by apply Hsub|done]. }
  eexists _, _. split; [by apply _filter_links_by_rel_valid|].
  split; [by apply _filter_links_by_rel_valid, Hmono|].
  rewrite <- (list_filter_filter_l (selects σ rels) (selects σ rels')).
  - apply sublist_filter.
  - intros l. apply Hmono.
Qed.

Section Properties.

Context `{E : Externals}.

(** ** [_optional_link] *)


Lemma _optional_link_valid (σ : store) (parsedLinks : ParsedLinks) (name : string) :
  lower name ∈ SIGNPOSTING →
  _optional_link σ parsedLinks name = Ok (by_rel σ parsedLinks name).
Proof.
  intros H. unfold _optional_link, ParsedLinks_contains, ParsedLinks_getitem.
  rewrite bool_decide_true by done. simpl.
  destruct (by_rel σ parsedLinks name) as [l|].
  - by rewrite bool_decide_true by eauto.
  - by rewrite bool_decide_false by (by intros [? ?]).
Qed.

Section CaseInsensitiveLookup.

(** The lookup of the parser resolves a name, in any case, to the first link
    in order that carries the relation. *)
Hypothesis by_rel_first : ∀ σ parsedLinks r,
  by_rel σ parsedLinks r = first_with σ (lower r) (links parsedLinks).


End CaseInsensitiveLookup.

(** ** [Signposting.__init__] *)

Lemma Signposting_init_ok (σ : store) (parsedLinks : ParsedLinks) :
  Signposting_init σ parsedLinks =
  Ok (mkSignposting
        (filter (has_rel σ "author") (links parsedLinks))
        (filter (has_rel σ "describedby") (links parsedLinks))
        (filter (has_rel σ "type") (links parsedLinks))
        (filter (has_rel σ "item") (links parsedLinks))
        (filter (has_rel σ "linkset") (links parsedLinks))
        (by_rel σ parsedLinks "cite-as")
        (by_rel σ parsedLinks "license")
        (by_rel σ parsedLinks "collection")).
Proof.
  unfold Signposting_init.
  rewrite !_filter_links_by_rel_single by vocabulary.
  rewrite !_optional_link_valid by vocabulary.
  reflexivity.
Qed.

(** ** The loop of [find_signposting] *)








(** ** [find_signposting] *)


(** C8: when the parser raises on the joined header lines, [find_signposting]
    raises the same exception and returns no result. *)
Theorem findSignposting_malformed (headers : list string)
    (baseurl : option string) (e : exn) :
  parse_link_header (join ", " headers) = Raise e →
  find_signposting headers baseurl = Raise e.
Proof. intros Hp. unfold find_signposting. by rewrite Hp. Qed.



Section AbsoluteInput.

(** [urljoin] returns an absolute reference unchanged. *)
Variable absolute : string → Prop.
Hypothesis urljoin_absolute : ∀ baseurl u, absolute u → urljoin baseurl u = u.



End AbsoluteInput.

Section RelFromAttributes.

(** The [rel] set of a new link depends on its [rel] attributes only. *)
Hypothesis link_rel_rel_only : ∀ attrs attrs' : list (string * string),
  filter (λ kv, lower kv.1 = "rel") attrs = filter (λ kv, lower kv.1 = "rel") attrs' →
  link_rel attrs = link_rel attrs'.

(** The link built for a base URL carries the relations of its attributes,
    as the link it is built from. *)
Lemma absolutized_rel (baseurl : string) (o : Link) :
  rel (absolutized baseurl o) = link_rel (attributes o).
Proof.
  unfold absolutized, Link_new. simpl. apply link_rel_rel_only.
  induction (attributes o) as [|[k v] attrs IH]; [done|].
  assert ((_absolute_attribute k v baseurl).1 = k) as Hfst.
  { unfold _absolute_attribute. by destruct (decide (lower k = "href")). }
  rewrite fmap_cons, !filter_cons. simpl. rewrite Hfst.
  destruct (decide (lower k = "rel")) as [Hk|Hk]; [|exact IH].
  unfold _absolute_attribute at 1.
  rewrite decide_False by (rewrite Hk; discriminate).
  f_equal. exact IH.
Qed.

End RelFromAttributes.

(** ** Classification *)



Section FirstMatchLookup.

(** The lookup of the parser resolves a lower-case name to the first link in
    order that carries the relation. *)
Hypothesis by_rel_lower : ∀ σ parsedLinks r,
  lower r = r →
  by_rel σ parsedLinks r = first_with σ r (links parsedLinks).



End FirstMatchLookup.

(** ** More on [_optional_link], [Signposting.__init__] and [find_signposting] *)


(** X10: [Signposting.__init__] never raises, whatever the links and the
    lookup of the parser: the eight names it passes are in the vocabulary.
    Each of its five list fields is a subsequence of the links it is given. *)
Theorem Signposting_init_never_raises (σ : store) (parsedLinks : ParsedLinks) :
  ∃ s, Signposting_init σ parsedLinks = Ok s ∧
    author s `sublist_of` links parsedLinks ∧
    describedBy s `sublist_of` links parsedLinks ∧
    type s `sublist_of` links parsedLinks ∧
    item s `sublist_of` links parsedLinks ∧
    linkset s `sublist_of` links parsedLinks.
Proof.
  eexists. split; [apply Signposting_init_ok|].
  simpl. repeat split; apply sublist_filter.
Qed.






Section LookupAndFilter.

(** The lookup of the parser resolves a name, in any case, to the first link
    in order that carries the relation. *)
Hypothesis by_rel_first : ∀ σ parsedLinks r,
  by_rel σ parsedLinks r = first_with σ (lower r) (links parsedLinks).


End LookupAndFilter.

Section FirstMatchResult.

(** The lookup of the parser resolves a lower-case name to the first link in
    order that carries the relation. *)
Hypothesis by_rel_lower : ∀ σ parsedLinks r,
  lower r = r →
  by_rel σ parsedLinks r = first_with σ r (links parsedLinks).




(** The [rel] set of a new link depends on its [rel] attributes only. *)
Hypothesis link_rel_rel_only : ∀ attrs attrs' : list (string * string),
  filter (λ kv, lower kv.1 = "rel") attrs = filter (λ kv, lower kv.1 = "rel") attrs' →
  link_rel attrs = link_rel attrs'.


End FirstMatchResult.


End Properties.

(** ** The functions on the sample *)

Example sample_urljoin_abs :
  Sample.urljoin "https://example.org/dataset/" "/data.csv" = "https://example.org/data.csv".
Proof. vm_compute. reflexivity. Qed.

Example sample_urljoin_rel :
  Sample.urljoin "https://example.org/dataset/x" "data.csv" = "https://example.org/dataset/data.csv".
Proof. vm_compute. reflexivity. Qed.

Example sample_parse_headers :
  Sample.parse_link_header (join ", " Sample.headers) = Ok Sample.objs.
Proof. vm_compute. reflexivity. Qed.

Example sample_parse_malformed :
  Sample.parse_link_header (join ", " Sample.malformed) =
  Raise (MalformedHeader "<https://example.org/a; rel=author").
Proof. vm_compute. reflexivity. Qed.





(** The result of [find_signposting] on the sample, without and with a base
    URL: the links of the second result are new objects. *)
Example sample_find_signposting :
  find_signposting (E := sample_externals) Sample.headers None =
  Ok (mkSignposting [0; 1] [] [] [1] [] (Some 3) None None, Sample.objs).
Proof. vm_compute. reflexivity. Qed.

Example sample_find_signposting_baseurl :
  find_signposting (E := sample_externals) Sample.headers (Some Sample.baseurl) =
  Ok (mkSignposting [5; 6] [] [] [6] [] (Some 7) None None,
      Sample.objs ++
      [ mkLink "https://example.org/a" [("rel", "author")] {["author"]};
        mkLink "https://example.org/b"
          [("rel", "item Author"); ("href", "https://example.org/dataset/c.json")]
          {["item"; "author"]};
        mkLink "https://doi.org/10.5555/12345678" [("rel", "cite-as")] {["cite-as"]};
        mkLink "https://example.org/about" [("rel", "describes")] {["describes"]} ]).
Proof. vm_compute. reflexivity. Qed.

(** Two [author] links stay in header order. *)
Example sample_authors_in_order :
  find_signposting (E := sample_externals)
    ["<https://example.org/a>; rel=author, <https://example.org/b>; rel=author"]
    None =
  Ok (mkSignposting [0; 1] [] [] [] [] None None None,
      [ mkLink "https://example.org/a" [("rel", "author")] {["author"]};
        mkLink "https://example.org/b" [("rel", "author")] {["author"]} ]).
Proof. vm_compute. reflexivity. Qed.

(** An absolute path is resolved against the origin of the base URL. *)
Example sample_item_resolved :
  find_signposting (E := sample_externals) ["</data.csv>; rel=item"]
    (Some "https://example.org/dataset/") =
  Ok (mkSignposting [] [] [] [1] [] None None None,
      [ mkLink "/data.csv" [("rel", "item")] {["item"]};
        mkLink "https://example.org/data.csv" [("rel", "item")] {["item"]} ]).
Proof. vm_compute. reflexivity. Qed.

Example sample_optional_link :
  _optional_link (E := sample_externals) Sample.objs (mkParsedLinks [0; 1; 2; 3; 4])
    "Cite-As" = Ok (Some 3) ∧
  _optional_link (E := sample_externals) Sample.objs (mkParsedLinks [0; 1; 2; 3; 4])
    "license" = Ok None ∧
  _optional_link (E := sample_externals) Sample.objs (mkParsedLinks [0; 1; 2; 3; 4])
    "stylesheet" = Raise (ValueError "Unknown FAIR Signposting relation: stylesheet").
Proof. vm_compute. repeat split. Qed.

Example sample_filter_one_invalid :
  _filter_links_by_rel Sample.objs (mkParsedLinks [0; 1; 2; 3; 4]) ["stylesheet"] =
  Raise (ValueError "No FAIR Signposting relations found: stylesheet").
Proof. vm_compute. reflexivity. Qed.

Example sample_filter_mixed :
  _filter_links_by_rel Sample.objs (mkParsedLinks [0; 1; 2; 1; 4])
    ["Item"; "stylesheet"; "describes"] = Ok [1; 1; 4].
Proof. vm_compute. reflexivity. Qed.

Lemma sample_link_rel_rel_only (attrs attrs' : list (string * string)) :
  filter (λ kv, lower kv.1 = "rel") attrs = filter (λ kv, lower kv.1 = "rel") attrs' →
  Sample.link_rel attrs = Sample.link_rel attrs'.
Proof.
  assert (∀ a : list (string * string),
    (a ≫= λ kv : string * string,
       if decide (lower kv.1 = "rel") then split (lower kv.2) " " else []) =
    (filter (λ kv, lower kv.1 = "rel") a ≫= λ kv : string * string,
       split (lower kv.2) " ")) as Hbind.
  { induction a as [|[k v] a IH]; [done|].
    rewrite filter_cons. cbn.
    destruct (decide (lower k = "rel")); cbn; [f_equal|]; exact IH. }
  intros Heq. unfold Sample.link_rel. by rewrite (Hbind attrs), (Hbind attrs'), Heq.
Qed.

(** The link built from the second sample link keeps its two relations. *)
Lemma sample_absolutized_rel :
  rel (absolutized (E := sample_externals) Sample.baseurl
         (mkLink "/b" [("rel", "item Author"); ("href", "c.json")] {["item"; "author"]})) =
  Sample.link_rel [("rel", "item Author"); ("href", "c.json")].
Proof.
  apply (absolutized_rel (E := sample_externals) sample_link_rel_rel_only).
Qed.

(** ** The properties on the sample *)





Lemma filterByRelations_no_names_witness :
  _filter_links_by_rel Sample.objs (mkParsedLinks [0; 1; 2; 3; 4]) [] =
    _filter_links_by_rel Sample.objs (mkParsedLinks [0; 1; 2; 3; 4])
      ["linkset"; "license"; "type"; "cite-as"; "item"; "describes";
       "describedby"; "collection"; "author"] ∧
  ∃ ls, _filter_links_by_rel Sample.objs (mkParsedLinks [0; 1; 2; 3; 4]) [] = Ok ls.
Proof.
  apply (filterByRelations_no_names Sample.objs (mkParsedLinks [0; 1; 2; 3; 4])).
  vm_compute. reflexivity.
Defined.


Lemma findSignposting_malformed_witness :
  find_signposting (E := sample_externals) Sample.malformed (Some Sample.baseurl) =
  Raise (MalformedHeader "<https://example.org/a; rel=author").
Proof.
  apply (findSignposting_malformed (E := sample_externals) Sample.malformed
           (Some Sample.baseurl)).
  vm_compute. reflexivity.
Defined.



(** ** More properties on the sample *)

Lemma filter_names_permutation_witness :
  _filter_links_by_rel Sample.objs (mkParsedLinks [0; 1; 2; 3; 4])
    ["item"; "stylesheet"; "Cite-As"] =
  _filter_links_by_rel Sample.objs (mkParsedLinks [0; 1; 2; 3; 4])
    ["Cite-As"; "item"; "stylesheet"].
Proof.
  apply (filter_names_permutation Sample.objs (mkParsedLinks [0; 1; 2; 3; 4])
           ["item"; "stylesheet"; "Cite-As"] ["Cite-As"; "item"; "stylesheet"]).
  symmetry. exact (Permutation_cons_append ["item"; "stylesheet"] "Cite-As").
Defined.

Lemma filter_names_case_witness :
  _filter_links_by_rel Sample.objs (mkParsedLinks [0; 1; 2; 3; 4]) ["Item"; "AUTHOR"] =
  _filter_links_by_rel Sample.objs (mkParsedLinks [0; 1; 2; 3; 4]) ["item"; "Author"].
Proof.
  apply (filter_names_case Sample.objs (mkParsedLinks [0; 1; 2; 3; 4])
           ["Item"; "AUTHOR"] ["item"; "Author"]).
  - repeat constructor.
  - apply Exists_cons_hd. vocabulary.
Defined.

Lemma filter_returns_vocabulary_links_witness :
  [1; 1; 4] `sublist_of` [0; 1; 2; 1; 4] ∧
  Forall (λ l, ∃ o, Sample.objs !! l = Some o ∧ rel o ∩ SIGNPOSTING ≠ ∅) [1; 1; 4].
Proof.
  apply (filter_returns_vocabulary_links Sample.objs (mkParsedLinks [0; 1; 2; 1; 4])
           ["Item"; "stylesheet"; "describes"] [1; 1; 4]).
  vm_compute. reflexivity.
Defined.

Lemma filter_idempotent_witness :
  _filter_links_by_rel Sample.objs (mkParsedLinks [1; 1; 4])
    ["Item"; "stylesheet"; "describes"] = Ok [1; 1; 4].
Proof.
  apply (filter_idempotent Sample.objs (mkParsedLinks [0; 1; 2; 1; 4])
           ["Item"; "stylesheet"; "describes"] [1; 1; 4]).
  vm_compute. reflexivity.
Defined.

Lemma filter_after_vocabulary_filter_witness :
  _filter_links_by_rel Sample.objs (mkParsedLinks [0; 1; 3; 4]) ["author"] =
  _filter_links_by_rel Sample.objs (mkParsedLinks [0; 1; 2; 3; 4]) ["author"].
Proof.
  apply (filter_after_vocabulary_filter Sample.objs (mkParsedLinks [0; 1; 2; 3; 4])
           ["author"] [0; 1; 3; 4]).
  vm_compute. reflexivity.
Defined.

Lemma filter_monotone_witness :
  ∃ res res',
    _filter_links_by_rel Sample.objs (mkParsedLinks [0; 1; 2; 3; 4]) ["item"] = Ok res ∧
    _filter_links_by_rel Sample.objs (mkParsedLinks [0; 1; 2; 3; 4])
      ["cite-as"; "item"] = Ok res' ∧
    res `sublist_of` res'.
Proof.
  apply (filter_monotone Sample.objs (mkParsedLinks [0; 1; 2; 3; 4])
           ["item"] ["cite-as"; "item"]).
  - intros r Hr. apply list_elem_of_singleton in Hr as ->.
    apply elem_of_cons. right. apply elem_of_cons. by left.
  - apply Exists_cons_hd. vocabulary.
Defined.









